(** * The collaboration-log initializer ([init.py])

    A shallow embedding of [init_collaboration] and of the part of the
    Python runtime it calls ([pathlib.Path.mkdir], [Path.exists],
    [Path.write_text], [datetime.now().strftime], [print]), followed by
    the properties of the initializer.

    The script acts on the file system below the current working directory,
    on the console and on the clock.  All three are part of an explicit
    [world]; the script is a computation in a state-and-exception monad that
    also records every call it makes to the outside as an [event]. *)

From Stdlib Require Import Ascii String Lia.
From stdpp Require Import gmap strings list fin_maps.

Open Scope string_scope.

(** ** Strings *)

(** Python's ["\n"]. *)
Definition NL : string := String (ascii_of_N 10) "".

(** Python's [s * n] on strings. *)
Fixpoint str_mul (s : string) (n : nat) : string :=
  match n with
  | 0 => ""
  | S k => s +:+ str_mul s k
  end.

(** A triple-quoted literal, given by its lines: every line of the literal,
    the last one included, is followed by a newline. *)
Fixpoint text (lines : list string) : string :=
  match lines with
  | [] => ""
  | l :: ls => l +:+ NL +:+ text ls
  end.

(** ** Paths

    A [pathlib] path relative to the working directory is the list of its
    components; the empty list is the working directory itself. *)

Abbreviation path := (list string).

Definition Path (s : string) : path := [s].

(** The [/] operator of [pathlib]. *)
Definition joinpath (p : path) (s : string) : path := p ++ [s].

Definition parent (p : path) : path := removelast p.

(** ** Time *)

Record datetime := Datetime {
  year : N; month : N; day : N;
  hour : N; minute : N; second : N;
  microsecond : N
}.

(** The invariant of Python's [datetime] objects (the day is bounded by 31
    here, whatever the month: the calendar plays no role below). *)
Definition valid_datetime (t : datetime) : Prop :=
  (1 <= year t <= 9999 /\ 1 <= month t <= 12 /\ 1 <= day t <= 31 /\
   hour t < 24 /\ minute t < 60 /\ second t < 60 /\
   microsecond t < 1000000)%N.

Definition digit (n : N) : ascii := ascii_of_N (48 + n mod 10).

(** A number as two, resp. four, zero-padded decimal digits. *)
Definition pad2 (n : N) : string :=
  String (digit (n / 10)) (String (digit n) "").

Definition pad4 (n : N) : string :=
  String (digit (n / 1000)) (String (digit (n / 100)) (pad2 n)).

(** The directives of [strftime] that the script uses; any other character
    after [%] is left as it stands. *)
Definition directive (c : ascii) (t : datetime) : string :=
  if decide (c = "Y"%char) then pad4 (year t)
  else if decide (c = "m"%char) then pad2 (month t)
  else if decide (c = "d"%char) then pad2 (day t)
  else if decide (c = "H"%char) then pad2 (hour t)
  else if decide (c = "M"%char) then pad2 (minute t)
  else if decide (c = "S"%char) then pad2 (second t)
  else String "%" (String c "").

Fixpoint strftime (fmt : string) (t : datetime) : string :=
  match fmt with
  | "" => ""
  | String c rest =>
      if decide (c = "%"%char) then
        match rest with
        | String d rest' => directive d t +:+ strftime rest' t
        | "" => "%"
        end
      else String c (strftime rest t)
  end.

(** ** The world *)

Inductive node :=
  | Dir
  | File (content : string).

(** The [OSError] subclasses and error codes that creating a directory or a
    file can raise. *)
Inductive OSError :=
  | FileExistsError
  | FileNotFoundError
  | NotADirectoryError
  | IsADirectoryError
  | PermissionError
  | ReadOnlyFileSystem
  | NoSpaceLeft
  | IOFailure.

(** What the environment refuses: a path in [faults] cannot be created,
    for the given reason (permissions, a read-only or full device, ...). *)
Inductive fault := Denied | ReadOnly | NoSpace | Broken.

Definition raise_of (f : fault) : OSError :=
  match f with
  | Denied => PermissionError
  | ReadOnly => ReadOnlyFileSystem
  | NoSpace => NoSpaceLeft
  | Broken => IOFailure
  end.

Record world := World {
  fs : gmap path node;        (* what exists below the working directory *)
  faults : gmap path fault;   (* creations that the environment refuses *)
  clock : nat -> datetime;    (* the successive readings of [datetime.now()] *)
  reads : nat                 (* how many readings were taken so far *)
}.

Definition set_fs (m : gmap path node) (w : world) : world :=
  {| fs := m; faults := faults w; clock := clock w; reads := reads w |}.

Definition tick (w : world) : world :=
  {| fs := fs w; faults := faults w; clock := clock w; reads := S (reads w) |}.

(** ** Events, results and the monad *)

Inductive event :=
  | Print (s : string)
  | Mkdir (p : path) (err : option OSError)
  | Exists (p : path) (found : bool)
  | Now (t : datetime)
  | WriteText (p : path) (s : string) (err : option OSError).

Inductive result (A : Type) :=
  | Ok (a : A)
  | Raise (e : OSError).
Arguments Ok {A} a.
Arguments Raise {A} e.

Record outcome (A : Type) := Outcome {
  events : list event;   (* the calls made, oldest first *)
  final : world;         (* the world when the computation stopped *)
  res : result A
}.
Arguments Outcome {A} _ _ _.
Arguments events {A} _.
Arguments final {A} _.
Arguments res {A} _.

Definition M (A : Type) : Type := world -> outcome A.

Definition ret {A} (a : A) : M A := fun w => Outcome [] w (Ok a).

(** An outcome preceded by earlier events. *)
Definition emit {A} (evs : list event) (o : outcome A) : outcome A :=
  Outcome (evs ++ events o) (final o) (res o).

(** Sequencing: an exception stops the computation where it is raised; what
    was done before it stays done. *)
Definition bind {A B} (m : M A) (k : A -> M B) : M B := fun w =>
  let o := m w in
  match res o with
  | Ok a => emit (events o) (k a (final o))
  | Raise e => Outcome (events o) (final o) (Raise e)
  end.

Declare Scope prog_scope.
Delimit Scope prog_scope with prog.
Notation "x <- m ;; k" := (bind m (fun x => k))
  (at level 100, m at next level, right associativity) : prog_scope.
Notation "m ;; k" := (bind m (fun _ => k))
  (at level 100, right associativity) : prog_scope.

(** ** The calls of the script to the outside *)

(** [print(s)]: one line on standard output. *)
Definition print (s : string) : M unit := fun w =>
  Outcome [Print s] w (Ok tt).

(** [datetime.now()]: the next reading of the clock. *)
Definition now : M datetime := fun w =>
  let t := clock w (reads w) in
  Outcome [Now t] (tick w) (Ok t).

(** What a path's parent directory holds; the working directory exists. *)
Definition parent_node (m : gmap path node) (p : path) : option node :=
  match parent p with
  | [] => Some Dir
  | q => m !! q
  end.

(** The [mkdir] system call: the path must be free, its parent a directory,
    and the environment must allow the creation. *)
Definition os_mkdir (p : path) (w : world) : result world :=
  match fs w !! p with
  | Some _ => Raise FileExistsError
  | None =>
      match parent_node (fs w) p with
      | None => Raise FileNotFoundError
      | Some (File _) => Raise NotADirectoryError
      | Some Dir =>
          match faults w !! p with
          | Some f => Raise (raise_of f)
          | None => Ok (set_fs (<[p := Dir]> (fs w)) w)
          end
      end
  end.

Definition is_dir (p : path) (w : world) : bool :=
  match fs w !! p with
  | Some Dir => true
  | _ => false
  end.

(** [Path.mkdir(parents, exist_ok)], after pathlib: a missing parent is an
    error unless [parents] is set, in which case the parents are made first;
    any other error is dropped when [exist_ok] is set and the path is a
    directory.  The recursion goes to the parent, so the number of
    components bounds it. *)
Fixpoint mkdir_from (n : nat) (p : path) (parents exist_ok : bool)
    (w : world) : result world :=
  match os_mkdir p w with
  | Ok w' => Ok w'
  | Raise FileNotFoundError =>
      if negb parents || bool_decide (parent p = p) then Raise FileNotFoundError
      else
        match n with
        | 0 => Raise FileNotFoundError
        | S k =>
            match mkdir_from k (parent p) true true w with
            | Ok w1 => mkdir_from k p false exist_ok w1
            | Raise e => Raise e
            end
        end
  | Raise e =>
      if negb exist_ok || negb (is_dir p w) then Raise e else Ok w
  end.

Definition mkdir (p : path) (parents exist_ok : bool) : M unit := fun w =>
  match mkdir_from (length p) p parents exist_ok w with
  | Ok w' => Outcome [Mkdir p None] w' (Ok tt)
  | Raise e => Outcome [Mkdir p (Some e)] w (Raise e)
  end.

(** [Path.exists()]. *)
Definition present (m : gmap path node) (p : path) : bool :=
  match m !! p with
  | Some _ => true
  | None => false
  end.

Definition exists_ (p : path) : M bool := fun w =>
  let b := present (fs w) p in
  Outcome [Exists p b] w (Ok b).

(** Opening a path for writing: a directory cannot be opened, an existing
    file is truncated, a new file needs an existing parent directory. *)
Definition open_w (p : path) (w : world) : result world :=
  match fs w !! p with
  | Some Dir => Raise IsADirectoryError
  | Some (File _) =>
      match faults w !! p with
      | Some f => Raise (raise_of f)
      | None => Ok (set_fs (<[p := File ""]> (fs w)) w)
      end
  | None =>
      match parent_node (fs w) p with
      | None => Raise FileNotFoundError
      | Some (File _) => Raise NotADirectoryError
      | Some Dir =>
          match faults w !! p with
          | Some f => Raise (raise_of f)
          | None => Ok (set_fs (<[p := File ""]> (fs w)) w)
          end
      end
  end.

(** [Path.write_text(s)]: open for writing, write [s], close. *)
Definition write_text (p : path) (s : string) : M unit := fun w =>
  match open_w p w with
  | Ok w' => Outcome [WriteText p s None] (set_fs (<[p := File s]> (fs w')) w') (Ok tt)
  | Raise e => Outcome [WriteText p s (Some e)] w (Raise e)
  end.

(** ** The script *)

(** The literal written to [logs/ai_chat.md]. *)
Definition ai_chat_text : string := text [
  "<!-- DEVELOPMENT WORKFLOW INSTRUCTIONS";
  "CURSOR (Cmd+Shift+D): ";
  "1. Read this file (logs/ai_chat.md)";
  "2. Look for CURSOR_TURN in the last message";
  "3. Execute your current phase (PLAN → DELIVERABLES → DEVELOP → REVIEW)";
  "4. Write timestamped response below";
  "5. End with COPILOT_TURN or HUMAN_APPROVAL_NEEDED";
  "";
  "COPILOT (Cmd+Shift+R):";
  "1. Read this file (logs/ai_chat.md)";
  "2. Look for COPILOT_TURN in the last message";
  "3. Review based on phase (PRE-DEV → CODE → FINAL)";
  "4. Write timestamped response below";
  "5. End with CURSOR_TURN or HUMAN_APPROVAL_NEEDED";
  "";
  "Keep messages concise. Update dev_log.md with summaries.";
  "-->";
  "";
  "# AI Development Chat";
  "";
  "## Current Task: None";
  "## Current Phase: PLAN";
  "";
  "---";
  "";
  "START - Press Cmd+Shift+D in Cursor to begin the first development cycle."
].

(** The f-string written to [logs/dev_log.md]; [stamp] is the value of its
    one replacement field. *)
Definition dev_log_text (stamp : string) : string := text [
  "# Development Log";
  "";
  "Started: " +:+ stamp;
  "";
  "## PREDEVELOPMENT PLAN";
  "";
  "## PREDEVELOPMENT DELIVERABLES";
  "";
  "## POST DEVELOPMENT";
  "";
  "---"
].

(** The f-string written to [logs/archived_logs.md]. *)
Definition archived_logs_text (stamp : string) : string := text [
  "# Archived Logs";
  "";
  "Created: " +:+ stamp;
  "";
  "This file stores older conversations and logs for reference.";
  "";
  "---"
].

Definition stamp_format : string := "%Y-%m-%d %H:%M:%S".

#[global] Arguments strftime : simpl never.
#[global] Arguments text : simpl never.
#[global] Arguments str_mul : simpl never.

Definition logs_dir : path := Path "logs".
Definition ai_chat : path := joinpath logs_dir "ai_chat.md".
Definition dev_log : path := joinpath logs_dir "dev_log.md".
Definition archived_logs : path := joinpath logs_dir "archived_logs.md".

(* Show setup instructions *)
Definition show_setup_instructions : M unit :=
 (print (NL +:+ str_mul "=" 60);;
  print "📋 SETUP INSTRUCTIONS";;
  print (str_mul "=" 60);;

  print (NL +:+ "1️⃣  In Cursor, set up this keyboard shortcut:");;
  print "   Cmd/Ctrl + Shift + D → Triggers development cycle";;
  print (NL +:+ "   Give Cursor this simple instruction:");;
  print "   'Read logs/ai_chat.md and follow the instructions at the top'";;

  print (NL +:+ "2️⃣  In VSCode with Copilot, set up:");;
  print "   Cmd/Ctrl + Shift + R → Triggers review cycle";;
  print (NL +:+ "   Give Copilot this simple instruction:");;
  print "   'Read logs/ai_chat.md and follow the instructions at the top'";;

  print (NL +:+ "3️⃣  Run the status dashboard (optional):");;
  print "   python status.py";;

  print (NL +:+ "4️⃣  Start development:");;
  print "   Press Cmd+Shift+D in Cursor";;

  print (NL +:+ str_mul "=" 60);;
  print "✨ Ready! The AIs will communicate through logs/ai_chat.md";;
  print (str_mul "=" 60);;

  print (NL +:+ "📁 Created structure:");;
  print "   logs/";;
  print "   ├── ai_chat.md       (AI communication)";;
  print "   ├── dev_log.md       (Development record)";;
  print "   └── archived_logs.md (Old conversations)";;
  print (str_mul "=" 60))%prog.

(** The body of [init_collaboration], section by section, under the
    comments that head the sections in the script. *)

(* Create logs directory *)
Definition create_logs_directory : M unit :=
 (mkdir logs_dir false true;;
  print "📁 Created logs/ directory")%prog.

(* Create ai_chat.md in logs *)
Definition create_ai_chat : M unit :=
 (found <- exists_ ai_chat;;
  if negb found then
    write_text ai_chat ai_chat_text;;
    print "✅ Created logs/ai_chat.md"
  else
    print "📄 logs/ai_chat.md already exists")%prog.

(* Create dev_log.md in logs *)
Definition create_dev_log : M unit :=
 (found <- exists_ dev_log;;
  if negb found then
    (t <- now;; write_text dev_log (dev_log_text (strftime stamp_format t)));;
    print "✅ Created logs/dev_log.md"
  else
    print "📄 logs/dev_log.md already exists")%prog.

(* Create archived_logs.md in logs *)
Definition create_archived_logs : M unit :=
 (found <- exists_ archived_logs;;
  if negb found then
    (t <- now;;
     write_text archived_logs (archived_logs_text (strftime stamp_format t)));;
    print "✅ Created logs/archived_logs.md"
  else
    print "📄 logs/archived_logs.md already exists")%prog.

Definition init_collaboration : M unit :=
 (print "🚀 Initializing AI Collaboration System...";;
  create_logs_directory;;
  create_ai_chat;;
  create_dev_log;;
  create_archived_logs;;
  show_setup_instructions)%prog.

(** Running the script as a program: the interpreter exits with status 0
    when [init_collaboration] returns and with status 1 when an exception
    reaches the top level. *)
Definition exit_status {A} (r : result A) : nat :=
  match r with
  | Ok _ => 0
  | Raise _ => 1
  end.

Definition main (w : world) : outcome unit * nat :=
  let o := init_collaboration w in (o, exit_status (res o)).

(** The console: what the [print] calls of a run wrote, in order. *)
Definition printed (evs : list event) : list string :=
  omap (fun ev => match ev with Print s => Some s | _ => None end) evs.


(** The three files, in the order of the script, and the four artifacts. *)
Definition the_files : list path := [ai_chat; dev_log; archived_logs].
Definition artifacts : list path := logs_dir :: the_files.

(** The status lines of the script. *)
Definition render (p : path) : string := String.concat "/" p.

Definition start_line : string := "🚀 Initializing AI Collaboration System...".
Definition dir_line : string := "📁 Created logs/ directory".
Definition created_line (p : path) : string := "✅ Created " +:+ render p.
Definition exists_line (p : path) : string :=
  "📄 " +:+ render p +:+ " already exists".

(** * Executing the script symbolically *)

Lemma emit_nil {A} (o : outcome A) : emit [] o = o.
Proof. by destruct o. Qed.

Lemma emit_emit {A} (e1 e2 : list event) (o : outcome A) :
  emit e1 (emit e2 o) = emit (e1 ++ e2) o.
Proof. unfold emit; simpl. by rewrite app_assoc. Qed.

Lemma emit_Outcome {A} (e1 e2 : list event) w (r : result A) :
  emit e1 (Outcome e2 w r) = Outcome (e1 ++ e2) w r.
Proof. done. Qed.

Lemma bind_ret {A B} (a : A) (k : A -> M B) w : bind (ret a) k w = k a w.
Proof. unfold bind, ret; simpl. apply emit_nil. Qed.

Lemma bind_assoc {A B C} (m : M A) (f : A -> M B) (g : B -> M C) w :
  bind (bind m f) g w = bind m (fun a => bind (f a) g) w.
Proof.
  unfold bind. destruct (res (m w)) as [a|e]; simpl; [|done].
  destruct (res (f a (final (m w)))) as [b|e]; simpl; [|done].
  by rewrite emit_emit.
Qed.

Lemma bind_print {B} (s : string) (k : unit -> M B) w :
  bind (print s) k w = emit [Print s] (k tt w).
Proof. done. Qed.

Lemma bind_now {B} (k : datetime -> M B) w :
  bind now k w = emit [Now (clock w (reads w))] (k (clock w (reads w)) (tick w)).
Proof. done. Qed.

Lemma bind_exists {B} (p : path) (k : bool -> M B) w :
  bind (exists_ p) k w = emit [Exists p (present (fs w) p)] (k (present (fs w) p) w).
Proof. done. Qed.

Lemma bind_closed {A B} (m : M A) (k : A -> M B) w evs w' r :
  m w = Outcome evs w' r ->
  bind m k w =
    match r with
    | Ok a => emit evs (k a w')
    | Raise e => Outcome evs w' (Raise e)
    end.
Proof. unfold bind. by intros ->. Qed.

Lemma present_None (m : gmap path node) p : present m p = false -> m !! p = None.
Proof. unfold present. by destruct (m !! p). Qed.

Lemma present_Some (m : gmap path node) p :
  present m p = true -> exists n, m !! p = Some n.
Proof. unfold present. destruct (m !! p); [eauto|done]. Qed.

Lemma present_insert_eq (m : gmap path node) p n : present (<[p := n]> m) p = true.
Proof. unfold present. by rewrite lookup_insert_eq. Qed.

Lemma present_insert_ne (m : gmap path node) p q n :
  p <> q -> present (<[p := n]> m) q = present m q.
Proof. intros. unfold present. by rewrite lookup_insert_ne. Qed.

(** ** The calls in closed form *)

(** What [logs_dir.mkdir(exist_ok=True)] does, by the state of [logs]. *)
Lemma mkdir_logs_dir w :
  mkdir logs_dir false true w =
    match fs w !! logs_dir with
    | Some Dir => Outcome [Mkdir logs_dir None] w (Ok tt)
    | Some (File _) =>
        Outcome [Mkdir logs_dir (Some FileExistsError)] w (Raise FileExistsError)
    | None =>
        match faults w !! logs_dir with
        | Some f => Outcome [Mkdir logs_dir (Some (raise_of f))] w (Raise (raise_of f))
        | None => Outcome [Mkdir logs_dir None] (set_fs (<[logs_dir := Dir]> (fs w)) w) (Ok tt)
        end
    end.
Proof.
  unfold mkdir, mkdir_from, os_mkdir, is_dir, parent_node; simpl.
  destruct (fs w !! logs_dir) as [[|c]|]; simpl; try done.
  destruct (faults w !! logs_dir) as [[]|]; done.
Qed.

(** Writing a file that [exists] has just reported absent, below a
    directory. *)
Lemma write_text_absent p s w :
  fs w !! p = None -> parent_node (fs w) p = Some Dir ->
  write_text p s w =
    match faults w !! p with
    | Some f => Outcome [WriteText p s (Some (raise_of f))] w (Raise (raise_of f))
    | None => Outcome [WriteText p s None] (set_fs (<[p := File s]> (fs w)) w) (Ok tt)
    end.
Proof.
  intros Hp Hd. unfold write_text, open_w. rewrite Hp, Hd.
  destruct (faults w !! p); simpl; [done|].
  by rewrite insert_insert_eq.
Qed.

(** ** The sections of the script in closed form *)

(** The file sections run in a world where [logs] is a directory. *)
Definition ready (w : world) : Prop := fs w !! logs_dir = Some Dir.

Lemma ready_parent w p :
  ready w -> parent p = logs_dir -> parent_node (fs w) p = Some Dir.
Proof. unfold ready, parent_node. by intros Hw ->. Qed.

Lemma create_logs_directory_run w :
  create_logs_directory w =
    match fs w !! logs_dir with
    | Some Dir => Outcome [Mkdir logs_dir None; Print dir_line] w (Ok tt)
    | Some (File _) =>
        Outcome [Mkdir logs_dir (Some FileExistsError)] w (Raise FileExistsError)
    | None =>
        match faults w !! logs_dir with
        | Some f =>
            Outcome [Mkdir logs_dir (Some (raise_of f))] w (Raise (raise_of f))
        | None =>
            Outcome [Mkdir logs_dir None; Print dir_line]
              (set_fs (<[logs_dir := Dir]> (fs w)) w) (Ok tt)
        end
    end.
Proof.
  unfold create_logs_directory, bind. rewrite mkdir_logs_dir.
  destruct (fs w !! logs_dir) as [[|c]|]; try done.
  by destruct (faults w !! logs_dir).
Qed.

Lemma create_ai_chat_run w :
  ready w ->
  create_ai_chat w =
    if present (fs w) ai_chat then
      Outcome [Exists ai_chat true; Print (exists_line ai_chat)] w (Ok tt)
    else
      match faults w !! ai_chat with
      | Some f =>
          Outcome [Exists ai_chat false;
                   WriteText ai_chat ai_chat_text (Some (raise_of f))]
            w (Raise (raise_of f))
      | None =>
          Outcome [Exists ai_chat false; WriteText ai_chat ai_chat_text None;
                   Print (created_line ai_chat)]
            (set_fs (<[ai_chat := File ai_chat_text]> (fs w)) w) (Ok tt)
      end.
Proof.
  intros Hw. unfold create_ai_chat. rewrite bind_exists.
  destruct (present (fs w) ai_chat) eqn:Hp; simpl; [done|].
  unfold bind. rewrite write_text_absent by eauto using present_None, ready_parent.
  by destruct (faults w !! ai_chat).
Qed.

Lemma create_dev_log_run w :
  ready w ->
  create_dev_log w =
    if present (fs w) dev_log then
      Outcome [Exists dev_log true; Print (exists_line dev_log)] w (Ok tt)
    else
      let t := clock w (reads w) in
      let s := dev_log_text (strftime stamp_format t) in
      match faults w !! dev_log with
      | Some f =>
          Outcome [Exists dev_log false; Now t;
                   WriteText dev_log s (Some (raise_of f))]
            (tick w) (Raise (raise_of f))
      | None =>
          Outcome [Exists dev_log false; Now t; WriteText dev_log s None;
                   Print (created_line dev_log)]
            (set_fs (<[dev_log := File s]> (fs w)) (tick w)) (Ok tt)
      end.
Proof.
  intros Hw. unfold create_dev_log. rewrite bind_exists.
  destruct (present (fs w) dev_log) eqn:Hp; simpl; [done|].
  rewrite bind_assoc, bind_now. unfold bind.
  rewrite write_text_absent by eauto using present_None, ready_parent.
  by destruct (faults (tick w) !! dev_log) eqn:Hf; simpl in Hf; rewrite Hf.
Qed.

Lemma create_archived_logs_run w :
  ready w ->
  create_archived_logs w =
    if present (fs w) archived_logs then
      Outcome [Exists archived_logs true; Print (exists_line archived_logs)]
        w (Ok tt)
    else
      let t := clock w (reads w) in
      let s := archived_logs_text (strftime stamp_format t) in
      match faults w !! archived_logs with
      | Some f =>
          Outcome [Exists archived_logs false; Now t;
                   WriteText archived_logs s (Some (raise_of f))]
            (tick w) (Raise (raise_of f))
      | None =>
          Outcome [Exists archived_logs false; Now t;
                   WriteText archived_logs s None;
                   Print (created_line archived_logs)]
            (set_fs (<[archived_logs := File s]> (fs w)) (tick w)) (Ok tt)
      end.
Proof.
  intros Hw. unfold create_archived_logs. rewrite bind_exists.
  destruct (present (fs w) archived_logs) eqn:Hp; simpl; [done|].
  rewrite bind_assoc, bind_now. unfold bind.
  rewrite write_text_absent by eauto using present_None, ready_parent.
  by destruct (faults (tick w) !! archived_logs) eqn:Hf; simpl in Hf; rewrite Hf.
Qed.

(** The last section does the same in every world: its lines, in order. *)
Definition setup_events : list event :=
  events (show_setup_instructions (World ∅ ∅ (fun _ => Datetime 0 0 0 0 0 0 0) 0)).

Definition setup_lines : list string := printed setup_events.

Lemma show_setup_instructions_run w :
  show_setup_instructions w = Outcome setup_events w (Ok tt).
Proof. done. Qed.

#[global] Arguments setup_events : simpl never.
#[global] Arguments created_line : simpl never.
#[global] Arguments exists_line : simpl never.
#[global] Arguments start_line : simpl never.
#[global] Arguments dir_line : simpl never.

(** ** The sections followed by the rest of the script *)

Lemma bind_create_logs_directory {B} (k : unit -> M B) w :
  bind create_logs_directory k w =
    match fs w !! logs_dir with
    | Some Dir => emit [Mkdir logs_dir None; Print dir_line] (k tt w)
    | Some (File _) =>
        Outcome [Mkdir logs_dir (Some FileExistsError)] w (Raise FileExistsError)
    | None =>
        match faults w !! logs_dir with
        | Some f =>
            Outcome [Mkdir logs_dir (Some (raise_of f))] w (Raise (raise_of f))
        | None =>
            emit [Mkdir logs_dir None; Print dir_line]
              (k tt (set_fs (<[logs_dir := Dir]> (fs w)) w))
        end
    end.
Proof.
  pose proof (create_logs_directory_run w) as H.
  destruct (fs w !! logs_dir) as [[|c]|];
    [| |destruct (faults w !! logs_dir)]; by rewrite (bind_closed _ _ _ _ _ _ H).
Qed.

Lemma bind_create_ai_chat {B} (k : unit -> M B) w :
  ready w ->
  bind create_ai_chat k w =
    if present (fs w) ai_chat then
      emit [Exists ai_chat true; Print (exists_line ai_chat)] (k tt w)
    else
      match faults w !! ai_chat with
      | Some f =>
          Outcome [Exists ai_chat false;
                   WriteText ai_chat ai_chat_text (Some (raise_of f))]
            w (Raise (raise_of f))
      | None =>
          emit [Exists ai_chat false; WriteText ai_chat ai_chat_text None;
                Print (created_line ai_chat)]
            (k tt (set_fs (<[ai_chat := File ai_chat_text]> (fs w)) w))
      end.
Proof.
  intros Hw. pose proof (create_ai_chat_run w Hw) as H.
  destruct (present (fs w) ai_chat);
    [|destruct (faults w !! ai_chat)]; by rewrite (bind_closed _ _ _ _ _ _ H).
Qed.

Lemma bind_create_dev_log {B} (k : unit -> M B) w :
  ready w ->
  bind create_dev_log k w =
    if present (fs w) dev_log then
      emit [Exists dev_log true; Print (exists_line dev_log)] (k tt w)
    else
      let t := clock w (reads w) in
      let s := dev_log_text (strftime stamp_format t) in
      match faults w !! dev_log with
      | Some f =>
          Outcome [Exists dev_log false; Now t;
                   WriteText dev_log s (Some (raise_of f))]
            (tick w) (Raise (raise_of f))
      | None =>
          emit [Exists dev_log false; Now t; WriteText dev_log s None;
                Print (created_line dev_log)]
            (k tt (set_fs (<[dev_log := File s]> (fs w)) (tick w)))
      end.
Proof.
  intros Hw. pose proof (create_dev_log_run w Hw) as H.
  destruct (present (fs w) dev_log);
    [|destruct (faults w !! dev_log)]; by rewrite (bind_closed _ _ _ _ _ _ H).
Qed.

Lemma bind_create_archived_logs {B} (k : unit -> M B) w :
  ready w ->
  bind create_archived_logs k w =
    if present (fs w) archived_logs then
      emit [Exists archived_logs true; Print (exists_line archived_logs)] (k tt w)
    else
      let t := clock w (reads w) in
      let s := archived_logs_text (strftime stamp_format t) in
      match faults w !! archived_logs with
      | Some f =>
          Outcome [Exists archived_logs false; Now t;
                   WriteText archived_logs s (Some (raise_of f))]
            (tick w) (Raise (raise_of f))
      | None =>
          emit [Exists archived_logs false; Now t;
                WriteText archived_logs s None;
                Print (created_line archived_logs)]
            (k tt (set_fs (<[archived_logs := File s]> (fs w)) (tick w)))
      end.
Proof.
  intros Hw. pose proof (create_archived_logs_run w Hw) as H.
  destruct (present (fs w) archived_logs);
    [|destruct (faults w !! archived_logs)]; by rewrite (bind_closed _ _ _ _ _ _ H).
Qed.

Lemma init_collaboration_start w :
  init_collaboration w =
    emit [Print start_line]
      (bind create_logs_directory (fun _ =>
       bind create_ai_chat (fun _ =>
       bind create_dev_log (fun _ =>
       bind create_archived_logs (fun _ => show_setup_instructions)))) w).
Proof. done. Qed.

(** ** The four paths are distinct *)

Lemma artifacts_NoDup : NoDup artifacts.
Proof. compute_done. Qed.

Lemma logs_ne_ai : logs_dir <> ai_chat. Proof. done. Qed.
Lemma logs_ne_dev : logs_dir <> dev_log. Proof. done. Qed.
Lemma logs_ne_arch : logs_dir <> archived_logs. Proof. done. Qed.
Lemma ai_ne_dev : ai_chat <> dev_log. Proof. done. Qed.
Lemma ai_ne_arch : ai_chat <> archived_logs. Proof. done. Qed.
Lemma dev_ne_arch : dev_log <> archived_logs. Proof. done. Qed.
Lemma ai_ne_logs : ai_chat <> logs_dir. Proof. done. Qed.
Lemma dev_ne_logs : dev_log <> logs_dir. Proof. done. Qed.
Lemma arch_ne_logs : archived_logs <> logs_dir. Proof. done. Qed.
Lemma dev_ne_ai : dev_log <> ai_chat. Proof. done. Qed.
Lemma arch_ne_ai : archived_logs <> ai_chat. Proof. done. Qed.
Lemma arch_ne_dev : archived_logs <> dev_log. Proof. done. Qed.

Create HintDb paths.
#[export] Hint Resolve logs_ne_ai logs_ne_dev logs_ne_arch
  ai_ne_dev ai_ne_arch dev_ne_arch ai_ne_logs dev_ne_logs arch_ne_logs
  dev_ne_ai arch_ne_ai arch_ne_dev : paths.

(** ** Running the whole script by cases

    [run_cases w] splits on everything that a run from [w] looks at and
    leaves, in each case, the outcome of the run in place of
    [init_collaboration w]. *)

Lemma fs_set_fs m w : fs (set_fs m w) = m. Proof. done. Qed.
Lemma faults_set_fs m w : faults (set_fs m w) = faults w. Proof. done. Qed.
Lemma clock_set_fs m w : clock (set_fs m w) = clock w. Proof. done. Qed.
Lemma reads_set_fs m w : reads (set_fs m w) = reads w. Proof. done. Qed.
Lemma fs_tick w : fs (tick w) = fs w. Proof. done. Qed.
Lemma faults_tick w : faults (tick w) = faults w. Proof. done. Qed.
Lemma clock_tick w : clock (tick w) = clock w. Proof. done. Qed.
Lemma reads_tick w : reads (tick w) = S (reads w). Proof. done. Qed.

Ltac proj_norm :=
  repeat first
   [ rewrite fs_set_fs | rewrite fs_tick
   | rewrite faults_set_fs | rewrite faults_tick
   | rewrite clock_set_fs | rewrite clock_tick
   | rewrite reads_set_fs | rewrite reads_tick ].

Ltac look :=
  repeat first
    [ rewrite present_insert_eq
    | rewrite present_insert_ne by auto with paths nocore
    | rewrite lookup_insert_eq
    | rewrite lookup_insert_ne by auto with paths nocore ].

Ltac ready_tac :=
  unfold ready; proj_norm; look; first [ assumption | reflexivity ].

Ltac known :=
  proj_norm; look;
  repeat match goal with
    | H : present _ _ = _ |- _ => rewrite H
    | H : faults _ !! _ = _ |- _ => rewrite H
    | H : fs _ !! logs_dir = _ |- _ => rewrite H
    end;
  cbv zeta.

Ltac split_present p :=
  try lazymatch goal with
  | |- context [if present ?m p then _ else _] =>
      destruct (present m p) eqn:?
  end.

Ltac split_faults p :=
  try lazymatch goal with
  | |- context [match faults ?w !! p with _ => _ end] =>
      destruct (faults w !! p) eqn:?
  end.

Ltac exec_step :=
  lazymatch goal with
  | |- context [bind create_logs_directory _ ?w] =>
      rewrite (bind_create_logs_directory _ w); known;
      try lazymatch goal with
        | |- context [match fs ?w' !! logs_dir with _ => _ end] =>
            destruct (fs w' !! logs_dir) as [[|?]|] eqn:?
        end;
      known; split_faults logs_dir
  | |- context [bind create_ai_chat _ ?w] =>
      rewrite (bind_create_ai_chat _ w) by ready_tac; known;
      split_present ai_chat; known; split_faults ai_chat
  | |- context [bind create_dev_log _ ?w] =>
      rewrite (bind_create_dev_log _ w) by ready_tac; known;
      split_present dev_log; known; split_faults dev_log
  | |- context [bind create_archived_logs _ ?w] =>
      rewrite (bind_create_archived_logs _ w) by ready_tac; known;
      split_present archived_logs; known; split_faults archived_logs
  end.

Ltac run_cases w :=
  let o := fresh "o" in
  let Ho := fresh "Ho" in
  remember (init_collaboration w) as o eqn:Ho; symmetry in Ho; revert Ho;
  rewrite (init_collaboration_start w); repeat exec_step;
  rewrite ?show_setup_instructions_run, ?emit_Outcome; cbn [app];
  intros <-;
  cbn [events final res fs faults clock reads set_fs tick].

(** * Properties of the initializer *)

(** Worlds to run the script on: an empty working directory, one where
    [logs/ai_chat.md] holds a conversation, and one where all four
    artifacts are there. *)
Definition noon : datetime := Datetime 2024 3 9 12 0 7 250000.

Definition empty_world : world := World ∅ ∅ (fun _ => noon) 0.

Definition used_world : world :=
  World (<[ai_chat := File "# AI Development Chat (in use)"]> {[logs_dir := Dir]})
        ∅ (fun _ => noon) 0.

Definition full_world : world :=
  World (<[archived_logs := File "old"]> (<[dev_log := File "log"]> (fs used_world)))
        ∅ (fun _ => noon) 0.

(** A working directory in which [logs] is a regular file. *)
Definition logs_file_world : world :=
  World {[logs_dir := File "not a directory"]} ∅ (fun _ => noon) 0.

(** ** Existing entries are never touched *)

(** A leaf of the case analysis: a lookup below the entries the run added. *)
Ltac absent_facts :=
  repeat match goal with
  | H : present _ _ = false |- _ => apply present_None in H
  end.

Ltac added_elsewhere p :=
  repeat match goal with
  | |- <[?k := _]> _ !! p = _ =>
      destruct (decide (k = p)) as [<-|];
      [ exfalso; absent_facts; congruence
      | rewrite lookup_insert_ne by done ]
  end.

(** Whatever exists before a run, a file with its content or a directory,
    is there unchanged when the run stops, however it stops. *)
Lemma init_keeps_entries w p n :
  fs w !! p = Some n -> fs (final (init_collaboration w)) !! p = Some n.
Proof.
  intros Hp. run_cases w; added_elsewhere p; exact Hp.
Qed.

(** Where a run stops, nothing is left for the script to create: either
    [logs] cannot be made, or it is a directory in which the files are there
    up to the first one that the environment refuses. *)
Definition blocked (w : world) (p : path) : Prop :=
  fs w !! p = None /\ exists f, faults w !! p = Some f.

Definition settled (w : world) : Prop :=
  (exists c, fs w !! logs_dir = Some (File c)) \/
  blocked w logs_dir \/
  (ready w /\
   (blocked w ai_chat \/
    (present (fs w) ai_chat = true /\
     (blocked w dev_log \/
      (present (fs w) dev_log = true /\
       (blocked w archived_logs \/ present (fs w) archived_logs = true)))))).

Ltac settle_files :=
  first
    [ left; split; [assumption | eexists; eassumption]
    | right; split; [first [assumption | reflexivity] | settle_files]
    | right; first [assumption | reflexivity] ].

Lemma init_settles w : settled (final (init_collaboration w)).
Proof.
  unfold settled, blocked, ready. run_cases w; absent_facts; look;
  first
    [ left; eexists; eassumption
    | right; left; split; [assumption | eexists; eassumption]
    | right; right; split; [first [assumption | reflexivity] | settle_files] ].
Qed.

(** A run from a settled world changes nothing in the file system. *)
Lemma settled_fs w : settled w -> fs (final (init_collaboration w)) = fs w.
Proof.
  unfold settled, blocked, ready.
  intros [[c Hc]|[[Hl [f Hf]]|[Hr H]]]; [run_cases w; reflexivity..|].
  destruct H as [[Ha [f Hf]]|[Ha H]];
    [assert (present (fs w) ai_chat = false) by (unfold present; by rewrite Ha);
     run_cases w; reflexivity|].
  destruct H as [[Hd [f Hf]]|[Hd H]];
    [assert (present (fs w) dev_log = false) by (unfold present; by rewrite Hd);
     run_cases w; reflexivity|].
  destruct H as [[Hx [f Hf]]|Hx];
    [assert (present (fs w) archived_logs = false)
       by (unfold present; by rewrite Hx);
     run_cases w; reflexivity|].
  run_cases w; reflexivity.
Qed.

(** A second run, started where the first one stopped, changes nothing in
    the file system. *)
Lemma rerun_fs w :
  fs (final (init_collaboration (final (init_collaboration w)))) =
  fs (final (init_collaboration w)).
Proof. apply settled_fs, init_settles. Qed.

(** C1. A run never modifies a [logs/ai_chat.md], [logs/dev_log.md] or
    [logs/archived_logs.md] that exists before it, whatever it holds, and
    after a second run in succession each of the three paths holds exactly
    what it held after the first run. *)
Theorem existing_files_preserved (w : world) (p : path) :
  In p the_files ->
  (forall n, fs w !! p = Some n ->
             fs (final (init_collaboration w)) !! p = Some n) /\
  fs (final (init_collaboration (final (init_collaboration w)))) !! p =
    fs (final (init_collaboration w)) !! p.
Proof.
  intros _. split.
  - intros n. apply init_keeps_entries.
  - by rewrite rerun_fs.
Qed.

Lemma existing_files_preserved_witness :
  fs (final (init_collaboration used_world)) !! ai_chat =
    Some (File "# AI Development Chat (in use)") /\
  fs (final (init_collaboration (final (init_collaboration used_world)))) !! ai_chat =
    fs (final (init_collaboration used_world)) !! ai_chat.
Proof.
  destruct (existing_files_preserved used_world ai_chat) as [H1 H2].
  - simpl. auto.
  - split; [apply H1; vm_compute; reflexivity | exact H2].
Defined.

(** ** What a run creates *)

(** Nothing but the four artifacts is ever touched. *)
Lemma init_touches_only_artifacts w p :
  ~ In p artifacts -> fs (final (init_collaboration w)) !! p = fs w !! p.
Proof.
  intros Hp.
  assert (logs_dir <> p /\ ai_chat <> p /\ dev_log <> p /\ archived_logs <> p)
    as (? & ? & ? & ?) by (simpl in Hp; tauto).
  run_cases w; rewrite ?lookup_insert_ne by assumption; reflexivity.
Qed.

(** A run returns normally exactly when nothing that it has to create is in
    its way: [logs] is a directory or can be made, and every missing file
    can be made. *)
Definition creatable (w : world) (p : path) : Prop :=
  fs w !! p = None -> faults w !! p = None.

Definition unhindered (w : world) : Prop :=
  (forall c, fs w !! logs_dir <> Some (File c)) /\
  Forall (creatable w) artifacts.

Lemma init_succeeds w : unhindered w -> res (init_collaboration w) = Ok tt.
Proof.
  unfold unhindered, creatable, artifacts, the_files.
  rewrite !Forall_cons. intros (Hl & Hc & Ha & Hd & Hx & _).
  run_cases w; absent_facts; try reflexivity; exfalso;
    solve [ eapply Hl; first [eassumption | reflexivity]
          | specialize (Hc ltac:(first [assumption | reflexivity])); congruence
          | specialize (Ha ltac:(assumption)); congruence
          | specialize (Hd ltac:(assumption)); congruence
          | specialize (Hx ltac:(assumption)); congruence ].
Qed.

Lemma init_success_unhindered w :
  res (init_collaboration w) = Ok tt -> unhindered w.
Proof.
  unfold unhindered, creatable, artifacts, the_files. rewrite !Forall_cons.
  run_cases w; intros Hr; try discriminate Hr; absent_facts;
    (split; [intros c; congruence|]);
    repeat apply conj; try exact (List.Forall_nil _); intros Habs;
    first [ congruence | unfold present in *; rewrite Habs in *; discriminate ].
Qed.

Definition fresh_directory (w : world) : Prop :=
  Forall (fun p => fs w !! p = None) artifacts.

Definition no_faults (w : world) : Prop :=
  Forall (fun p => faults w !! p = None) artifacts.

Lemma no_faults_unhindered w :
  (forall c, fs w !! logs_dir <> Some (File c)) -> no_faults w -> unhindered w.
Proof.
  intros Hl Hf. split; [exact Hl|].
  eapply Forall_impl; [exact Hf|]. by intros p Hp _.
Qed.

(** C2. In a working directory where neither [logs/] nor any of the three
    files exists, a run, when the environment refuses none of the four
    creations, returns normally, creates the directory [logs/] and the three
    files with their templates, and leaves every other path as it was. *)
Theorem init_on_fresh_directory (w : world) :
  fresh_directory w -> no_faults w ->
  let o := init_collaboration w in
  res o = Ok tt /\
  fs (final o) !! logs_dir = Some Dir /\
  fs (final o) !! ai_chat = Some (File ai_chat_text) /\
  fs (final o) !! dev_log =
    Some (File (dev_log_text (strftime stamp_format (clock w (reads w))))) /\
  fs (final o) !! archived_logs =
    Some (File (archived_logs_text
                  (strftime stamp_format (clock w (S (reads w)))))) /\
  (forall p, ~ In p artifacts -> fs (final o) !! p = fs w !! p).
Proof.
  unfold fresh_directory, no_faults, artifacts, the_files.
  rewrite !Forall_cons. intros (Hl & Ha & Hd & Hx & _) (Fl & Fa & Fd & Fx & _).
  assert (present (fs w) ai_chat = false) by (unfold present; by rewrite Ha).
  assert (present (fs w) dev_log = false) by (unfold present; by rewrite Hd).
  assert (present (fs w) archived_logs = false) by (unfold present; by rewrite Hx).
  cbv zeta. split; [|split; [|split; [|split; [|split]]]];
    [run_cases w; look; reflexivity..|].
  intros p Hp. apply init_touches_only_artifacts, Hp.
Qed.

Lemma init_on_fresh_directory_witness :
  res (init_collaboration empty_world) = Ok tt /\
  fs (final (init_collaboration empty_world)) !! logs_dir = Some Dir /\
  fs (final (init_collaboration empty_world)) !! ai_chat = Some (File ai_chat_text).
Proof.
  destruct (init_on_fresh_directory empty_world) as (H1 & H2 & H3 & _).
  - repeat constructor.
  - repeat constructor.
  - exact (conj H1 (conj H2 H3)).
Defined.

(** ** The directory comes first *)

(** At [logs] the flag [parents] makes no difference: [logs] lies directly
    in the working directory, so no parent of it is ever missing. *)
Lemma mkdir_logs_dir_parents w :
  mkdir logs_dir true true w = mkdir logs_dir false true w.
Proof.
  unfold mkdir, mkdir_from, os_mkdir, is_dir, parent_node; simpl.
  destruct (fs w !! logs_dir) as [[|c]|]; simpl; try done.
  destruct (faults w !! logs_dir) as [[]|]; done.
Qed.

(** With the flags of the script's call, [mkdir(exist_ok=True)], a missing
    parent is an error and nothing is created. *)
Lemma mkdir_missing_parent p w :
  fs w !! p = None -> parent_node (fs w) p = None ->
  mkdir p false true w =
    Outcome [Mkdir p (Some FileNotFoundError)] w (Raise FileNotFoundError).
Proof.
  intros Hp Hpar. unfold mkdir.
  assert (forall n, mkdir_from n p false true w = Raise FileNotFoundError) as ->;
    [|reflexivity].
  intros n. destruct n; simpl; unfold os_mkdir; by rewrite Hp, Hpar.
Qed.

(** C3 as stated: the first thing that a run does is the call that ensures
    [logs]. *)
Definition mkdir_is_first_effect (w : world) : Prop :=
  exists err rest, events (init_collaboration w) = Mkdir logs_dir err :: rest.

(** A path below a directory that is missing. *)
Definition nested : path := joinpath (Path "var") "logs".

(** C3 does not hold as stated.  In an empty working directory the first
    effect of a run is the greeting line on the console, not the [mkdir].
    And the call that the script makes is not one that creates missing
    parents: with its flags, a path whose parent is missing gets
    [FileNotFoundError] and nothing is made, where [parents=True] would
    have made both directories. *)
Lemma greeting_comes_first_and_no_parents :
  ~ mkdir_is_first_effect empty_world /\
  head (events (init_collaboration empty_world)) = Some (Print start_line) /\
  mkdir nested false true empty_world =
    Outcome [Mkdir nested (Some FileNotFoundError)] empty_world
            (Raise FileNotFoundError) /\
  res (mkdir nested true true empty_world) = Ok tt /\
  fs (final (mkdir nested true true empty_world)) !! Path "var" = Some Dir /\
  fs (final (mkdir nested true true empty_world)) !! nested = Some Dir.
Proof.
  split; [|split; [|split; [|split; [|split]]]].
  - intros (err & rest & H). vm_compute in H. discriminate H.
  - vm_compute. reflexivity.
  - vm_compute. reflexivity.
  - vm_compute. reflexivity.
  - vm_compute. reflexivity.
  - vm_compute. reflexivity.
Qed.

(** C3, amended.  After the greeting line, the first thing a run does is
    the call [logs_dir.mkdir(exist_ok=True)].  The call makes no parent
    directory (on any path whose parent is missing it raises
    [FileNotFoundError] and changes nothing), and [logs] needs none, lying
    directly in the working directory.  It raises no error and changes
    nothing when [logs] is a directory already; it makes [logs] when
    nothing is there and the environment allows it; and whenever it
    returns, [logs] is a directory and no other path has changed. *)
Theorem logs_directory_ensured (w : world) :
  let o := mkdir logs_dir false true w in
  (exists rest,
     events (init_collaboration w) = Print start_line :: (events o ++ rest)%list) /\
  (forall p, fs w !! p = None -> parent_node (fs w) p = None ->
     mkdir p false true w =
       Outcome [Mkdir p (Some FileNotFoundError)] w (Raise FileNotFoundError)) /\
  parent_node (fs w) logs_dir = Some Dir /\
  (fs w !! logs_dir = Some Dir -> o = Outcome [Mkdir logs_dir None] w (Ok tt)) /\
  (fs w !! logs_dir = None -> faults w !! logs_dir = None ->
   o = Outcome [Mkdir logs_dir None] (set_fs (<[logs_dir := Dir]> (fs w)) w) (Ok tt)) /\
  (res o = Ok tt ->
   fs (final o) !! logs_dir = Some Dir /\
   forall p, p <> logs_dir -> fs (final o) !! p = fs w !! p).
Proof.
  intros o. subst o. split; [|split; [|split; [|split; [|split]]]].
  - rewrite mkdir_logs_dir. run_cases w; eexists; reflexivity.
  - intros p. apply mkdir_missing_parent.
  - reflexivity.
  - intros H. by rewrite mkdir_logs_dir, H.
  - intros H1 H2. by rewrite mkdir_logs_dir, H1, H2.
  - rewrite mkdir_logs_dir.
    destruct (fs w !! logs_dir) as [[|c]|] eqn:Hl;
      [| |destruct (faults w !! logs_dir)]; simpl; try discriminate; intros _.
    + done.
    + split; [apply lookup_insert_eq|].
      intros p Hp. by rewrite lookup_insert_ne.
Qed.

Lemma logs_directory_ensured_witness :
  mkdir logs_dir false true used_world =
    Outcome [Mkdir logs_dir None] used_world (Ok tt) /\
  fs (final (mkdir logs_dir false true empty_world)) !! logs_dir = Some Dir /\
  mkdir nested false true empty_world =
    Outcome [Mkdir nested (Some FileNotFoundError)] empty_world
            (Raise FileNotFoundError).
Proof.
  pose proof (logs_directory_ensured used_world) as (_ & _ & _ & Hthere & _).
  pose proof (logs_directory_ensured empty_world)
    as (_ & Hparent & _ & _ & _ & Hmade).
  split; [|split].
  - apply Hthere. vm_compute. reflexivity.
  - apply Hmade. vm_compute. reflexivity.
  - apply Hparent; vm_compute; reflexivity.
Defined.

(** ** The console *)

(** Membership in a list of lines, decided by comparing strings. *)
Definition mem (x : string) (l : list string) : bool :=
  existsb (String.eqb x) l.

Lemma mem_true x l : mem x l = true -> In x l.
Proof.
  unfold mem. rewrite existsb_exists. intros (y & Hy & Heq).
  apply String.eqb_eq in Heq. by subst.
Qed.

Lemma mem_false x l : mem x l = false -> ~ In x l.
Proof.
  unfold mem. intros Hf Hin.
  assert (existsb (String.eqb x) l = true) as Ht
    by (apply existsb_exists; exists x; split; [done|apply String.eqb_refl]).
  congruence.
Qed.

Lemma printed_setup_events : printed setup_events = setup_lines.
Proof. done. Qed.

(** The line that confirms the creation of an artifact. *)
Definition creation_line (a : path) : string :=
  if decide (a = logs_dir) then dir_line else created_line a.

(** A console reports the status of an artifact when it holds the line for
    the status that applies and not the line for the other one. *)
Definition reports_status (lines : list string) (existed created : string)
    (was_there : bool) : Prop :=
  if was_there then In existed lines /\ ~ In created lines
  else In created lines /\ ~ In existed lines.

(** The claim that every artifact has its status reported, for a given
    choice of the lines that say "already exists". *)
Definition all_statuses_reported (w : world) (existed : path -> string) : Prop :=
  forall a, In a artifacts ->
    reports_status (printed (events (init_collaboration w)))
      (existed a) (creation_line a) (present (fs w) a).

(** C4, as stated, fails for the directory: in a working directory that
    holds [logs/] and the three files the run completes and prints
    "Created logs/ directory", so that whatever line is taken to say that the
    directory already exists, the directory is not reported as such. *)
Lemma directory_always_reported_created :
  present (fs full_world) logs_dir = true /\
  res (init_collaboration full_world) = Ok tt /\
  In dir_line (printed (events (init_collaboration full_world))) /\
  forall existed, ~ all_statuses_reported full_world existed.
Proof.
  assert (In dir_line (printed (events (init_collaboration full_world)))) as Hin
    by (apply mem_true; vm_compute; reflexivity).
  split; [vm_compute; reflexivity|]. split; [vm_compute; reflexivity|].
  split; [exact Hin|].
  intros existed Hall.
  destruct (Hall logs_dir) as [_ Hnot]; [simpl; auto|].
  apply Hnot. exact Hin.
Qed.

(** C4, amended.  On every run that completes, the console holds, for each
    of the three files, the line "... already exists" and no creation line
    when the file was there before the run, and the line "Created ..." and
    no "already exists" line when it was not; and it holds the line
    "Created logs/ directory", whether the directory was there or not. *)
Theorem file_statuses_reported (w : world) (p : path) :
  res (init_collaboration w) = Ok tt -> In p the_files ->
  let lines := printed (events (init_collaboration w)) in
  In dir_line lines /\
  reports_status lines (exists_line p) (created_line p) (present (fs w) p).
Proof.
  intros Hr Hp. cbv zeta. unfold reports_status.
  destruct Hp as [<-|[<-|[<-|[]]]];
    revert Hr; run_cases w; intros Hr; try discriminate Hr;
    (split; [apply mem_true; vm_compute; reflexivity|]);
    (split; [apply mem_true|apply mem_false]); vm_compute; reflexivity.
Qed.

Lemma file_statuses_reported_witness :
  In dir_line (printed (events (init_collaboration used_world))) /\
  reports_status (printed (events (init_collaboration used_world)))
    (exists_line ai_chat) (created_line ai_chat) true /\
  reports_status (printed (events (init_collaboration used_world)))
    (exists_line dev_log) (created_line dev_log) false.
Proof.
  assert (res (init_collaboration used_world) = Ok tt) as Hr
    by (vm_compute; reflexivity).
  split; [|split].
  - apply (file_statuses_reported used_world ai_chat Hr). simpl. auto.
  - apply (file_statuses_reported used_world ai_chat Hr). simpl. auto.
  - apply (file_statuses_reported used_world dev_log Hr). simpl. auto.
Defined.

(** ** Time stamps *)

(** Reading a stamp of the form [YYYY-MM-DD HH:MM:SS] back: the fields as
    numbers, or nothing when the string is not of that form. *)
Definition digit_value (c : ascii) : option N :=
  let n := N_of_ascii c in
  if ((48 <=? n) && (n <=? 57))%N then Some (n - 48)%N else None.

Fixpoint number (acc : N) (s : string) : option N :=
  match s with
  | "" => Some acc
  | String c rest =>
      match digit_value c with
      | Some d => number (10 * acc + d) rest
      | None => None
      end
  end.

Definition has_char (i : nat) (c : ascii) (s : string) : bool :=
  match String.get i s with
  | Some c' => Ascii.eqb c c'
  | None => false
  end.

Definition parse_stamp (s : string) : option (N * N * N * N * N * N) :=
  if (String.length s =? 19)%nat
     && has_char 4 "-" s && has_char 7 "-" s && has_char 10 " " s
     && has_char 13 ":" s && has_char 16 ":" s
  then
    y ← number 0 (substring 0 4 s);
    m ← number 0 (substring 5 2 s);
    d ← number 0 (substring 8 2 s);
    H ← number 0 (substring 11 2 s);
    M ← number 0 (substring 14 2 s);
    S ← number 0 (substring 17 2 s);
    Some (y, m, d, H, M, S)
  else None.

(** The fields of a clock reading that a stamp shows. *)
Definition to_seconds (t : datetime) : N * N * N * N * N * N :=
  (year t, month t, day t, hour t, minute t, second t).

#[global] Arguments digit : simpl never.

Lemma digit_value_digit n : digit_value (digit n) = Some (n mod 10)%N.
Proof.
  unfold digit_value, digit.
  pose proof (N.mod_upper_bound n 10 ltac:(lia)) as Hr.
  revert Hr. generalize (n mod 10)%N. intros r Hr.
  rewrite N_ascii_embedding by lia.
  replace ((48 <=? 48 + r)%N) with true by (symmetry; apply N.leb_le; lia).
  replace ((48 + r <=? 57)%N) with true by (symmetry; apply N.leb_le; lia).
  simpl. f_equal. lia.
Qed.

Lemma strftime_stamp t :
  strftime stamp_format t =
    pad4 (year t) +:+ "-" +:+ pad2 (month t) +:+ "-" +:+ pad2 (day t) +:+ " " +:+
    pad2 (hour t) +:+ ":" +:+ pad2 (minute t) +:+ ":" +:+ pad2 (second t).
Proof. reflexivity. Qed.

Lemma two_digits n :
  (n < 100 -> 10 * (10 * 0 + (n / 10) mod 10) + n mod 10 = n)%N.
Proof.
  intros Hn.
  pose proof (N.Div0.div_mod n 10) as H0.
  pose proof (N.mod_upper_bound n 10 ltac:(lia)) as B0.
  assert (n / 10 < 10)%N as Hq by (apply N.Div0.div_lt_upper_bound; lia).
  rewrite (N.mod_small (n / 10) 10) by exact Hq.
  revert H0 B0 Hq. generalize (n / 10)%N (n mod 10)%N. intros q r; lia.
Qed.

Lemma four_digits n :
  (n < 10000 ->
   10 * (10 * (10 * (10 * 0 + (n / 1000) mod 10) + (n / 100) mod 10)
         + (n / 10) mod 10) + n mod 10 = n)%N.
Proof.
  intros Hn.
  pose proof (N.Div0.div_mod n 10) as H0.
  pose proof (N.Div0.div_mod (n / 10) 10) as H1.
  pose proof (N.Div0.div_mod (n / 100) 10) as H2.
  rewrite N.Div0.div_div in H1. rewrite N.Div0.div_div in H2.
  change (10 * 10)%N with 100%N in H1. change (100 * 10)%N with 1000%N in H2.
  pose proof (N.mod_upper_bound n 10 ltac:(lia)) as B0.
  pose proof (N.mod_upper_bound (n / 10) 10 ltac:(lia)) as B1.
  pose proof (N.mod_upper_bound (n / 100) 10 ltac:(lia)) as B2.
  assert (n / 1000 < 10)%N as Hq by (apply N.Div0.div_lt_upper_bound; lia).
  rewrite (N.mod_small (n / 1000) 10) by exact Hq.
  revert H0 H1 H2 B0 B1 B2 Hq.
  generalize (n / 1000)%N ((n / 100) mod 10)%N ((n / 10) mod 10)%N
    (n mod 10)%N (n / 100)%N (n / 10)%N.
  intros; lia.
Qed.

Lemma number_pad2 n : (n < 100)%N -> number 0 (pad2 n) = Some n.
Proof.
  intros Hn. unfold pad2. cbn [number]. rewrite !digit_value_digit.
  f_equal. by apply two_digits.
Qed.

Lemma number_pad4 n : (n < 10000)%N -> number 0 (pad4 n) = Some n.
Proof.
  intros Hn. unfold pad4, pad2. cbn [number]. rewrite !digit_value_digit.
  f_equal. by apply four_digits.
Qed.

#[global] Arguments number : simpl never.

(** A stamp has the form [YYYY-MM-DD HH:MM:SS] and shows the reading it was
    made from, to the second. *)
Lemma parse_strftime t :
  valid_datetime t -> parse_stamp (strftime stamp_format t) = Some (to_seconds t).
Proof.
  intros (Hy & Hm & Hd & HH & HM & HS & _).
  rewrite strftime_stamp. unfold parse_stamp, pad4, pad2; simpl.
  change (number 0 (String (digit (year t / 1000)) (String (digit (year t / 100))
            (String (digit (year t / 10)) (String (digit (year t)) "")))))
    with (number 0 (pad4 (year t))).
  repeat match goal with
  | |- context [number 0 (String (digit (?n / 10)) (String (digit ?n) ""))] =>
      change (number 0 (String (digit (n / 10)) (String (digit n) "")))
        with (number 0 (pad2 n))
  end.
  rewrite number_pad4 by lia. rewrite !number_pad2 by lia. reflexivity.
Qed.

Lemma stamp_length t : String.length (strftime stamp_format t) = 19.
Proof. reflexivity. Qed.

(** Where the stamp stands in the two templates. *)
Lemma dev_log_text_stamp stamp :
  dev_log_text stamp =
    ("# Development Log" +:+ NL +:+ NL +:+ "Started: ") +:+ stamp +:+
    (NL +:+ text [""; "## PREDEVELOPMENT PLAN"; "";
                  "## PREDEVELOPMENT DELIVERABLES"; "";
                  "## POST DEVELOPMENT"; ""; "---"]).
Proof. reflexivity. Qed.

Lemma archived_logs_text_stamp stamp :
  archived_logs_text stamp =
    ("# Archived Logs" +:+ NL +:+ NL +:+ "Created: ") +:+ stamp +:+
    (NL +:+ text [""; "This file stores older conversations and logs for reference.";
                  ""; "---"]).
Proof. reflexivity. Qed.

Lemma dev_log_stamp_at t :
  substring 28 19 (dev_log_text (strftime stamp_format t)) = strftime stamp_format t.
Proof. reflexivity. Qed.

Lemma archived_logs_stamp_at t :
  substring 26 19 (archived_logs_text (strftime stamp_format t)) =
  strftime stamp_format t.
Proof. reflexivity. Qed.

(** ** What is written, and when *)

(** [follows a b l]: in [l], [b] comes immediately after [a]. *)
Inductive follows {A} (a b : A) : list A -> Prop :=
  | follows_here l : follows a b (a :: b :: l)
  | follows_later x l : follows a b l -> follows a b (x :: l).

Lemma setup_events_prints ev : In ev setup_events -> exists s, ev = Print s.
Proof.
  change setup_events with (map Print setup_lines).
  rewrite in_map_iff. intros (s & <- & _). eauto.
Qed.

(** The events of a leaf of the case analysis, one by one. *)
Ltac each_event H :=
  simpl in H;
  repeat match type of H with
  | _ \/ _ => destruct H as [H|H]
  end;
  try discriminate H; try contradiction;
  try (apply setup_events_prints in H as [? H]; discriminate H).

Ltac find_follows :=
  solve [ repeat first [ apply follows_here | apply follows_later ] ].

Ltac find_in := solve [ simpl; repeat first [ left; reflexivity | right ] ].

(** C5. Whenever the script writes [logs/dev_log.md] or
    [logs/archived_logs.md], the call just before the write is a reading
    [t] of the clock, the content written contains the stamp
    [strftime "%Y-%m-%d %H:%M:%S" t], a stamp of the form
    [YYYY-MM-DD HH:MM:SS] that reads back as [t] to the second, and when the
    write succeeds that content is what the file holds at the end of the
    run. *)
Theorem stamped_at_creation (w : world) (p : path) (s : string)
    (err : option OSError) :
  In p [dev_log; archived_logs] ->
  In (WriteText p s err) (events (init_collaboration w)) ->
  exists t,
    follows (Now t) (WriteText p s err) (events (init_collaboration w)) /\
    (exists k, t = clock w (reads w + k)) /\
    (exists pre suf, s = pre +:+ strftime stamp_format t +:+ suf) /\
    (valid_datetime t ->
     parse_stamp (strftime stamp_format t) = Some (to_seconds t)) /\
    (err = None -> fs (final (init_collaboration w)) !! p = Some (File s)).
Proof.
  intros Hp Hin. revert Hin. run_cases w; intros Hin; each_event Hin;
    injection Hin as <- <- <-;
    try (exfalso; simpl in Hp; destruct Hp as [Hp|[Hp|[]]];
         solve [eauto with paths nocore]);
    eexists; (split; [find_follows|]);
    (split; [first [ exists 0; f_equal; lia | exists 1; f_equal; lia ]|]);
    (split; [first [ do 2 eexists; apply dev_log_text_stamp
                   | do 2 eexists; apply archived_logs_text_stamp ]|]);
    (split; [apply parse_strftime|]);
    intros He; try discriminate He; look; reflexivity.
Qed.

Lemma stamped_at_creation_witness :
  exists t,
    follows (Now t)
      (WriteText dev_log (dev_log_text (strftime stamp_format noon)) None)
      (events (init_collaboration empty_world)) /\
    (exists k, t = clock empty_world (reads empty_world + k)) /\
    (exists pre suf,
       dev_log_text (strftime stamp_format noon) =
       pre +:+ strftime stamp_format t +:+ suf) /\
    (valid_datetime t ->
     parse_stamp (strftime stamp_format t) = Some (to_seconds t)) /\
    (@None OSError = None ->
     fs (final (init_collaboration empty_world)) !! dev_log =
       Some (File (dev_log_text (strftime stamp_format noon)))).
Proof.
  apply (stamped_at_creation empty_world dev_log
           (dev_log_text (strftime stamp_format noon)) None).
  - simpl. auto.
  - vm_compute. repeat first [ left; reflexivity | right ].
Defined.

(** The stamp of [noon], for the record. *)
Example stamp_of_noon : strftime stamp_format noon = "2024-03-09 12:00:07".
Proof. reflexivity. Qed.

(** Contents written with stamps of different seconds differ. *)
Lemma dev_log_text_shows_time t1 t2 :
  valid_datetime t1 -> valid_datetime t2 ->
  dev_log_text (strftime stamp_format t1) = dev_log_text (strftime stamp_format t2) ->
  to_seconds t1 = to_seconds t2.
Proof.
  intros H1 H2 Heq.
  apply (f_equal (substring 28 19)) in Heq. rewrite !dev_log_stamp_at in Heq.
  apply (f_equal parse_stamp) in Heq. rewrite !parse_strftime in Heq by done.
  congruence.
Qed.

Lemma archived_logs_text_shows_time t1 t2 :
  valid_datetime t1 -> valid_datetime t2 ->
  archived_logs_text (strftime stamp_format t1) =
  archived_logs_text (strftime stamp_format t2) ->
  to_seconds t1 = to_seconds t2.
Proof.
  intros H1 H2 Heq.
  apply (f_equal (substring 26 19)) in Heq. rewrite !archived_logs_stamp_at in Heq.
  apply (f_equal parse_stamp) in Heq. rewrite !parse_strftime in Heq by done.
  congruence.
Qed.

Ltac this_write H :=
  each_event H; injection H; intros; subst;
  try solve [exfalso; eauto with paths nocore].

(** C6. Of the three templates exactly two carry the time: whatever the
    world, the content written to [logs/ai_chat.md] is the one fixed string
    [ai_chat_text]; the contents written to [logs/dev_log.md] and to
    [logs/archived_logs.md] are their templates filled with the stamp of
    the clock reading taken just before the write, and they differ as soon
    as the readings differ by a second; and the clock is read for these two
    writes only. *)
Theorem two_templates_stamped (w : world) :
  let evs := events (init_collaboration w) in
  (forall s err, In (WriteText ai_chat s err) evs -> s = ai_chat_text) /\
  (forall s err, In (WriteText dev_log s err) evs ->
     exists t, follows (Now t) (WriteText dev_log s err) evs /\
               s = dev_log_text (strftime stamp_format t)) /\
  (forall s err, In (WriteText archived_logs s err) evs ->
     exists t, follows (Now t) (WriteText archived_logs s err) evs /\
               s = archived_logs_text (strftime stamp_format t)) /\
  (forall t, In (Now t) evs ->
     exists p s err, In p [dev_log; archived_logs] /\
                     follows (Now t) (WriteText p s err) evs) /\
  (forall t1 t2, valid_datetime t1 -> valid_datetime t2 ->
     to_seconds t1 <> to_seconds t2 ->
     dev_log_text (strftime stamp_format t1) <>
       dev_log_text (strftime stamp_format t2) /\
     archived_logs_text (strftime stamp_format t1) <>
       archived_logs_text (strftime stamp_format t2)).
Proof.
  cbv zeta. split; [|split; [|split; [|split]]].
  - intros s err. run_cases w; intros Hin; this_write Hin; reflexivity.
  - intros s err. run_cases w; intros Hin; this_write Hin;
      eexists; (split; [find_follows|reflexivity]).
  - intros s err. run_cases w; intros Hin; this_write Hin;
      eexists; (split; [find_follows|reflexivity]).
  - intros t. run_cases w; intros Hin; each_event Hin;
      injection Hin as <-; do 3 eexists;
      (split; [|find_follows]); simpl; auto.
  - intros t1 t2 H1 H2 Hne.
    split; intros Heq; apply Hne;
      eauto using dev_log_text_shows_time, archived_logs_text_shows_time.
Qed.

Lemma two_templates_stamped_witness :
  exists t,
    follows (Now t)
      (WriteText dev_log (dev_log_text (strftime stamp_format noon)) None)
      (events (init_collaboration empty_world)) /\
    dev_log_text (strftime stamp_format noon) =
      dev_log_text (strftime stamp_format t).
Proof.
  pose proof (two_templates_stamped empty_world) as (_ & Hdev & _).
  apply Hdev. vm_compute. repeat first [ left; reflexivity | right ].
Defined.

(** ** Errors *)

(** The error that a call to the file system ended with, if any. *)
Definition failure (ev : event) : option OSError :=
  match ev with
  | Mkdir _ err => err
  | WriteText _ _ err => err
  | _ => None
  end.

Definition failures (evs : list event) : list OSError := omap failure evs.

(** C7. The script handles no error.  A run in which a creation fails ends
    with that call (nothing is retried, nothing else runs after it), the
    error of the call is the exception that leaves [init_collaboration], and
    the program exits with status 1; in a run that ends normally no call
    has failed and the program exits with status 0. *)
Theorem errors_propagate (w : world) :
  let o := fst (main w) in
  let status := snd (main w) in
  match res o with
  | Ok _ => status = 0 /\ failures (events o) = []
  | Raise e =>
      status = 1 /\ failures (events o) = [e] /\
      exists ev, last (events o) = Some ev /\ failure ev = Some e
  end.
Proof.
  unfold main. cbn [fst snd]. cbv zeta.
  run_cases w; cbn [exit_status]; repeat split;
    first [ reflexivity | eexists; split; reflexivity ].
Qed.

(** Failing runs exist: with [logs/dev_log.md] refused for lack of
    permission, the run stops at that file with [PermissionError] and the
    program exits with status 1. *)
Definition guarded_world : world :=
  World (fs used_world) {[dev_log := Denied]} (fun _ => noon) 0.

Example permission_denied_propagates :
  res (fst (main guarded_world)) = Raise PermissionError /\
  snd (main guarded_world) = 1 /\
  last (events (fst (main guarded_world))) =
    Some (WriteText dev_log (dev_log_text (strftime stamp_format noon))
            (Some PermissionError)).
Proof. vm_compute. auto. Qed.

(** ** The order of the calls *)

(** How far a run has come: before [logs] is ensured, after it with a
    number of files handled, between the check and the write of the next
    file, and in the setup instructions. *)
Inductive stage :=
  | Greeting
  | Ensured (handled : nat)
  | Checked (handled : nat)
  | Instructions.

(** The order that the script is to keep, as the moves allowed from one
    stage to the next: [logs] is made first; the files are taken in the
    order of [the_files], each one checked and, if absent, written (with a
    clock reading in between at most) before the next is looked at; a line
    of the setup instructions can only be printed once the three files are
    handled, and from then on nothing else happens. *)
Definition next_stage (st : stage) (ev : event) : option stage :=
  match st, ev with
  | Greeting, Print s => if mem s setup_lines then None else Some Greeting
  | Greeting, Mkdir p _ =>
      if bool_decide (p = logs_dir) then Some (Ensured 0) else None
  | Ensured k, Print s =>
      if mem s setup_lines
      then (if bool_decide (k = length the_files) then Some Instructions else None)
      else Some (Ensured k)
  | Ensured k, Exists p found =>
      if bool_decide (the_files !! k = Some p)
      then Some (if found then Ensured (S k) else Checked k)
      else None
  | Checked k, Now _ => Some (Checked k)
  | Checked k, WriteText p _ _ =>
      if bool_decide (the_files !! k = Some p) then Some (Ensured (S k)) else None
  | Instructions, Print s =>
      if mem s setup_lines then Some Instructions else None
  | _, _ => None
  end.

Fixpoint stages (st : stage) (evs : list event) : option stage :=
  match evs with
  | [] => Some st
  | ev :: rest =>
      match next_stage st ev with
      | Some st' => stages st' rest
      | None => None
      end
  end.


(** The order is a real constraint: a file looked at before [logs] is
    ensured, a file taken out of turn, a write without a check, and a setup
    line before the files are all refused. *)
Example out_of_order_refused :
  stages Greeting [Exists ai_chat true] = None /\
  stages Greeting [Mkdir logs_dir None; Exists dev_log true] = None /\
  stages Greeting [Mkdir logs_dir None; WriteText ai_chat ai_chat_text None] = None /\
  stages Greeting
    [Mkdir logs_dir None; Exists ai_chat true; Print "📋 SETUP INSTRUCTIONS"] = None.
Proof. vm_compute. auto. Qed.

(** ** What a run depends on *)

(** C9 as stated asks of two starting states only that the same of the four
    artifacts exist in both and that the clock gives the same readings. *)
Definition same_subset_exists (w1 w2 : world) : Prop :=
  Forall (fun p => present (fs w2) p = present (fs w1) p) artifacts.

Definition same_clock (w1 w2 : world) : Prop :=
  forall k, clock w2 (reads w2 + k) = clock w1 (reads w1 + k).

(** A working directory that holds an empty directory [logs]. *)
Definition dir_only_world : world :=
  World {[logs_dir := Dir]} ∅ (fun _ => noon) 0.

(** C9, as stated, fails.  With [logs] an empty directory in one state and
    a regular file in the other, the same artifacts exist and the clocks
    agree, yet the first run prints all its 29 lines and returns while the
    second prints the greeting alone and raises.  And from two states with
    the same artifacts and the same clock, the run in which the environment
    refuses [logs/dev_log.md] stops after three lines with
    [PermissionError] while the other one completes. *)
Lemma existence_alone_does_not_decide :
  (same_subset_exists dir_only_world logs_file_world /\
   same_clock dir_only_world logs_file_world /\
   printed (events (init_collaboration dir_only_world)) <>
     printed (events (init_collaboration logs_file_world)) /\
   length (printed (events (init_collaboration dir_only_world))) = 29 /\
   printed (events (init_collaboration logs_file_world)) = [start_line] /\
   res (init_collaboration dir_only_world) = Ok tt /\
   res (init_collaboration logs_file_world) = Raise FileExistsError) /\
  (same_subset_exists used_world guarded_world /\
   same_clock used_world guarded_world /\
   printed (events (init_collaboration used_world)) <>
     printed (events (init_collaboration guarded_world)) /\
   length (printed (events (init_collaboration used_world))) = 29 /\
   length (printed (events (init_collaboration guarded_world))) = 3 /\
   res (init_collaboration used_world) = Ok tt /\
   res (init_collaboration guarded_world) = Raise PermissionError).
Proof.
  split.
  - split; [repeat (constructor; [vm_compute; reflexivity|]); constructor|].
    split; [intros k; reflexivity|].
    split; [intros H; apply (f_equal length) in H; vm_compute in H; discriminate H|].
    repeat split; vm_compute; reflexivity.
  - split; [repeat (constructor; [vm_compute; reflexivity|]); constructor|].
    split; [intros k; reflexivity|].
    split; [intros H; apply (f_equal length) in H; vm_compute in H; discriminate H|].
    repeat split; vm_compute; reflexivity.
Qed.

(** What stands at a path, without the content. *)
Inductive kind := Nothing | ADirectory | AFile.

Definition kind_of (o : option node) : kind :=
  match o with
  | None => Nothing
  | Some Dir => ADirectory
  | Some (File _) => AFile
  end.

(** Two worlds with the same artifacts: [logs] is of the same kind in both
    and each of the three files exists in both or in neither.  The contents
    of the files, and everything else below the working directory, may
    differ. *)
Definition same_artifacts (w1 w2 : world) : Prop :=
  kind_of (fs w2 !! logs_dir) = kind_of (fs w1 !! logs_dir) /\
  Forall (fun p => present (fs w2) p = present (fs w1) p) the_files.

(** The same environment: the same creations are refused and the clock
    gives the same readings. *)
Definition same_environment (w1 w2 : world) : Prop :=
  Forall (fun p => faults w2 !! p = faults w1 !! p) artifacts /\
  forall k, clock w2 (reads w2 + k) = clock w1 (reads w1 + k).

(** C9, amended.  The script never reads a file: its events are prints,
    [mkdir], [exists], clock readings and writes.  Accordingly, from two
    worlds with the same artifacts ([logs] of the same kind, not only
    present in both) and the same environment (the same creations refused,
    the same clock readings) it makes the same calls with the same
    arguments and results (so the same console output and the same
    contents written) and ends the same way, whatever the existing files
    hold. *)
Theorem contents_never_matter (w1 w2 : world) :
  same_artifacts w1 w2 -> same_environment w1 w2 ->
  events (init_collaboration w1) = events (init_collaboration w2) /\
  res (init_collaboration w1) = res (init_collaboration w2).
Proof.
  unfold same_artifacts, same_environment, artifacts, the_files.
  rewrite !Forall_cons.
  intros (Hk & Ha & Hd & Hx & _) ((Fl & Fa & Fd & Fx & _) & Hc).
  pose proof (Hc 0) as Hc0. pose proof (Hc 1) as Hc1.
  rewrite !Nat.add_0_r in Hc0. rewrite !Nat.add_1_r in Hc1. clear Hc.
  remember (init_collaboration w2) as o2 eqn:Ho2.
  run_cases w1;
    destruct (fs w2 !! logs_dir) as [[|c2]|] eqn:Hl2; try discriminate Hk;
    subst o2; run_cases w2; rewrite ?Hc0, ?Hc1; split; reflexivity.
Qed.

(** Two working directories that differ in what [logs/ai_chat.md] holds. *)
Definition other_world : world :=
  World (<[ai_chat := File "something else entirely"]> (fs used_world))
        ∅ (fun _ => noon) 0.

Lemma contents_never_matter_witness :
  fs used_world !! ai_chat <> fs other_world !! ai_chat /\
  events (init_collaboration used_world) = events (init_collaboration other_world) /\
  res (init_collaboration used_world) = res (init_collaboration other_world).
Proof.
  split; [vm_compute; discriminate|].
  apply (contents_never_matter used_world other_world).
  - split; [vm_compute; reflexivity|]. repeat constructor.
  - split; [repeat constructor|]. intros k. reflexivity.
Defined.

(** ** After a run that ends normally *)

Lemma present_is_Some (m : gmap path node) p :
  present m p = true -> is_Some (m !! p).
Proof. unfold present. by destruct (m !! p). Qed.

Ltac lookups :=
  look;
  repeat match goal with
  | H : fs _ !! logs_dir = _ |- _ => rewrite H
  end.

Ltac there :=
  lookups;
  first [ reflexivity | assumption | by eexists
        | apply present_is_Some; assumption ].

(** C10. After a run that ends normally the four artifacts exist, [logs/]
    as a directory, and for each of the three files, whatever the state of
    the other two: a file that was there holds what it held and was not
    written, and a file that was missing has been written and holds what
    was written. *)
Theorem missing_files_created (w : world) (p : path) :
  res (init_collaboration w) = Ok tt -> In p the_files ->
  let o := init_collaboration w in
  Forall (fun a => is_Some (fs (final o) !! a)) artifacts /\
  fs (final o) !! logs_dir = Some Dir /\
  (forall n, fs w !! p = Some n ->
     fs (final o) !! p = Some n /\
     forall s e, ~ In (WriteText p s e) (events o)) /\
  (fs w !! p = None ->
     exists s, fs (final o) !! p = Some (File s) /\
               In (WriteText p s None) (events o)).
Proof.
  intros Hr Hp. cbv zeta.
  destruct Hp as [<-|[<-|[<-|[]]]];
    revert Hr; run_cases w; intros Hr; try discriminate Hr; clear Hr;
    (split; [repeat apply List.Forall_cons; try apply List.Forall_nil; there|]);
    (split; [there|]);
    (split;
     [ intros n Hn;
       first [ solve [exfalso; absent_facts; congruence]
             | split; [lookups; exact Hn | intros s e Hin; this_write Hin] ]
     | intros Hn;
       first [ solve [exfalso; unfold present in *; rewrite Hn in *; discriminate]
             | eexists; split; [lookups; reflexivity | find_in] ] ]).
Qed.

Lemma missing_files_created_witness :
  fs (final (init_collaboration used_world)) !! logs_dir = Some Dir /\
  fs (final (init_collaboration used_world)) !! ai_chat =
    Some (File "# AI Development Chat (in use)") /\
  exists s, fs (final (init_collaboration used_world)) !! dev_log = Some (File s) /\
            In (WriteText dev_log s None) (events (init_collaboration used_world)).
Proof.
  assert (res (init_collaboration used_world) = Ok tt) as Hr
    by (vm_compute; reflexivity).
  pose proof (missing_files_created used_world ai_chat Hr) as Hai.
  pose proof (missing_files_created used_world dev_log Hr) as Hdev.
  destruct Hai as (_ & Hdir & Hkept & _); [simpl; auto|].
  destruct Hdev as (_ & _ & _ & Hmade); [simpl; auto|].
  split; [exact Hdir|]. split.
  - apply Hkept. vm_compute. reflexivity.
  - apply Hmade. vm_compute. reflexivity.
Defined.

(** * Further properties of the script *)

(** ** When [logs] is in the way *)

(** When [logs] exists and is not a directory, [exist_ok=True] does not
    help: the run prints the greeting, [mkdir] raises [FileExistsError],
    the world is left exactly as it was and the program exits with
    status 1. *)
Theorem logs_not_a_directory (w : world) (c : string) :
  fs w !! logs_dir = Some (File c) ->
  init_collaboration w =
    Outcome [Print start_line; Mkdir logs_dir (Some FileExistsError)] w
            (Raise FileExistsError) /\
  snd (main w) = 1.
Proof.
  intros Hl. unfold main. cbn [snd].
  run_cases w; split; reflexivity.
Qed.

Lemma logs_not_a_directory_witness :
  init_collaboration logs_file_world =
    Outcome [Print start_line; Mkdir logs_dir (Some FileExistsError)]
            logs_file_world (Raise FileExistsError) /\
  snd (main logs_file_world) = 1.
Proof.
  apply (logs_not_a_directory logs_file_world "not a directory").
  vm_compute. reflexivity.
Defined.

(** ** No rollback *)

(** A working directory in which the last file cannot be created. *)
Definition full_disk_world : world :=
  World ∅ {[archived_logs := NoSpace]} (fun _ => noon) 0.

(** What a run has created stays, also when the run fails later: after any
    run, [logs] is a directory if its [mkdir] succeeded, and every file
    whose write succeeded holds what was written. *)
Theorem creations_persist (w : world) (p : path) (s : string) :
  let o := init_collaboration w in
  (In (Mkdir logs_dir None) (events o) -> fs (final o) !! logs_dir = Some Dir) /\
  (In (WriteText p s None) (events o) -> fs (final o) !! p = Some (File s)).
Proof.
  cbv zeta. split.
  - run_cases w; intros Hin; each_event Hin; lookups; reflexivity.
  - run_cases w; intros Hin; each_event Hin;
      injection Hin as <- <-; lookups; reflexivity.
Qed.

Lemma creations_persist_witness :
  res (init_collaboration full_disk_world) = Raise NoSpaceLeft /\
  fs (final (init_collaboration full_disk_world)) !! logs_dir = Some Dir /\
  fs (final (init_collaboration full_disk_world)) !! ai_chat =
    Some (File ai_chat_text).
Proof.
  split; [vm_compute; reflexivity|].
  pose proof (creations_persist full_disk_world ai_chat ai_chat_text) as [Hd Hf].
  split.
  - apply Hd. vm_compute. repeat first [ left; reflexivity | right ].
  - apply Hf. vm_compute. repeat first [ left; reflexivity | right ].
Defined.

(** ** Running again *)

(** The events of a run that finds everything in place. *)
Definition quiet_events : list event :=
  [Print start_line; Mkdir logs_dir None; Print dir_line;
   Exists ai_chat true; Print (exists_line ai_chat);
   Exists dev_log true; Print (exists_line dev_log);
   Exists archived_logs true; Print (exists_line archived_logs)]
  ++ setup_events.

Lemma run_when_complete w :
  ready w -> Forall (fun p => present (fs w) p = true) the_files ->
  init_collaboration w = Outcome quiet_events w (Ok tt).
Proof.
  unfold ready, the_files. rewrite !Forall_cons.
  intros Hl (Ha & Hd & Hx & _). run_cases w. reflexivity.
Qed.

Lemma complete_after_success w :
  res (init_collaboration w) = Ok tt ->
  ready (final (init_collaboration w)) /\
  Forall (fun p => present (fs (final (init_collaboration w))) p = true) the_files.
Proof.
  unfold ready, the_files.
  run_cases w; intros Hr; try discriminate Hr;
    (split; [lookups; reflexivity|]);
    repeat apply List.Forall_cons; try apply List.Forall_nil;
    look; first [assumption | reflexivity].
Qed.

(** After a run that ended normally, a second run creates nothing, writes
    nothing and does not read the clock: it checks the three files, reports
    each as already existing, prints the setup instructions, and leaves the
    world, file system and clock, exactly as the first run left it. *)
Theorem second_run_is_quiet (w : world) :
  res (init_collaboration w) = Ok tt ->
  init_collaboration (final (init_collaboration w)) =
    Outcome quiet_events (final (init_collaboration w)) (Ok tt).
Proof.
  intros Hr. destruct (complete_after_success w Hr) as [Hl Hf].
  by apply run_when_complete.
Qed.

Lemma second_run_is_quiet_witness :
  init_collaboration (final (init_collaboration empty_world)) =
    Outcome quiet_events (final (init_collaboration empty_world)) (Ok tt).
Proof.
  apply (second_run_is_quiet empty_world). vm_compute. reflexivity.
Defined.

(** ** The console of a run *)

(** The status line of a file, by its state before the run. *)
Definition status_line (w : world) (p : path) : string :=
  if present (fs w) p then exists_line p else created_line p.

(** What a run from [w] prints when nothing fails. *)
Definition full_console (w : world) : list string :=
  start_line :: dir_line :: (map (status_line w) the_files ++ setup_lines).

Ltac console :=
  unfold printed; simpl; fold (printed setup_events);
  rewrite ?printed_setup_events.

(** The console of a run is determined by which files existed before it: a
    run that ends normally prints exactly the greeting, the directory line,
    one status line per file in the order [ai_chat.md], [dev_log.md],
    [archived_logs.md], and the setup instructions; a run that fails prints
    a strict beginning of these lines. *)
Theorem console_of_a_run (w : world) :
  let lines := printed (events (init_collaboration w)) in
  lines `prefix_of` full_console w /\
  match res (init_collaboration w) with
  | Ok _ => lines = full_console w
  | Raise _ => length lines < length (full_console w)
  end.
Proof.
  cbv zeta. unfold full_console, status_line, the_files. cbn [map app].
  run_cases w; console;
    (split;
     [ repeat apply prefix_cons; first [reflexivity | apply prefix_nil]
     | first [ reflexivity | cbn [length]; lia ] ]).
Qed.

(** ** Only the four paths *)

(** The path that a call to the file system is about. *)
Definition touched (ev : event) : option path :=
  match ev with
  | Mkdir p _ => Some p
  | Exists p _ => Some p
  | WriteText p _ _ => Some p
  | _ => None
  end.

Lemma setup_events_touch_nothing :
  Forall (fun ev => touched ev = None) setup_events.
Proof.
  apply List.Forall_forall. intros ev Hev.
  apply setup_events_prints in Hev as [s ->]. reflexivity.
Qed.

(** A run names no path but [logs] and the three files in it: every
    [mkdir], [exists] and [write_text] call that it makes, however it ends,
    is about one of the four. *)
Theorem calls_name_only_artifacts (w : world) :
  Forall (fun ev => forall p, touched ev = Some p -> In p artifacts)
         (events (init_collaboration w)).
Proof.
  run_cases w;
    repeat (apply List.Forall_cons;
            [ intros q Hq; simpl in Hq;
              first [ discriminate Hq
                    | injection Hq as <-; simpl; tauto ] | ]);
    first [ apply List.Forall_nil
          | eapply List.Forall_impl; [|apply setup_events_touch_nothing];
            intros ev Hev q Hq; congruence ].
Qed.

(** ** The clock *)








